(** * kuberos: the OIDC extractor (extractor/oidc.go)

    A shallow embedding of [NewOIDC], [HTTPClient] and [Process].

    The extractor is an adapter over collaborators that live outside the
    repository: [oauth2.Config.Exchange], [oidc.IDTokenVerifier.Verify],
    [oidc.IDToken.Claims], [oidc.ClientContext] and [errors.Wrap].  Calls
    that leave the package are modelled as events of a small program monad,
    so that a theorem holds whatever the collaborator answers, and so that
    the sequence of calls made by a run can be observed. *)

From Stdlib Require Import String Ascii List Bool.
Import ListNotations.
Open Scope string_scope.

Set Implicit Arguments.

(* ================================================================== *)
(** ** Errors (github.com/pkg/errors as the package uses it)          *)
(* ================================================================== *)

Module errors.

(** A non-nil error value.  [fundamental] is what [errors.New] builds,
    [withStack] what [errors.Wrap] builds around a non-nil cause, and
    [foreign] stands for an error value created by a collaborator. *)
Inductive value : Type :=
| fundamental (msg : string)
| withStack (cause : value) (msg : string)
| foreign (msg : string).

(** Go's [error] interface is [option value]: [None] is [nil]. *)

Definition New (msg : string) : option value := Some (fundamental msg).

(** [errors.Wrap] returns nil when [err] is nil. *)
Definition Wrap (err : option value) (msg : string) : option value :=
  match err with
  | None => None
  | Some e => Some (withStack e msg)
  end.

End errors.

Abbreviation error := (option errors.value).

(** What a collaborator hands back from a call of type [(T, error)]:
    a value with a nil error, or a non-nil error. *)
Inductive result (T : Type) : Type :=
| Ok (x : T)
| Failed (err : errors.value).
Arguments Ok {T} x.
Arguments Failed {T} err.

(* ================================================================== *)
(** ** Data of the collaborating packages                             *)
(* ================================================================== *)

Set Warnings "-register-all".

Module http.
(** [*http.Client]: a pointer, compared by identity. *)
Inductive Client : Type :=
| nilClient
| DefaultClient
| ClientAt (addr : nat).
End http.

Module context.
(** [context.Context]: the background context, a context carrying an HTTP
    client under the key [oauth2.HTTPClient], or one derived for another
    reason (deadline, cancellation, some other value). *)
Inductive Context : Type :=
| Background
| WithHTTPClient (parent : Context) (hc : http.Client)
| WithOther (parent : Context) (what : string).

(** [ctx.Value(oauth2.HTTPClient)]: the transport a collaborator finds in
    the context it is given, the innermost binding winning. *)
Fixpoint HTTPClientOf (ctx : Context) : option http.Client :=
  match ctx with
  | Background => None
  | WithHTTPClient _ hc => Some hc
  | WithOther parent _ => HTTPClientOf parent
  end.
End context.

(** A dynamically typed Go value ([interface{}]). *)
Inductive Any : Type :=
| AnyNil
| AnyString (s : string)
| AnyBool (b : bool)
| AnyInt64 (n : nat)
| AnyFloat64 (lit : string)
| AnySlice (l : list Any)
| AnyMap (m : list (string * Any)).

(** The type assertion [x.(string)] in its two-result form. *)
Definition assertString (x : Any) : string * bool :=
  match x with
  | AnyString s => (s, true)
  | _ => ("", false)
  end.

Module oauth2.
(** [oauth2.Config]. *)
Record Config : Type := mkConfig {
  ClientID : string;
  ClientSecret : string;
  TokenURL : string;
  RedirectURL : string;
  Scopes : list string
}.

(** [oauth2.Token]; [Extra] is its method of that name. *)
Record Token : Type := mkToken {
  AccessToken : string;
  RefreshToken : string;
  Extra : string -> Any
}.
End oauth2.

Module json.
(** A JSON document. *)
Inductive Value : Type :=
| Null
| Bool (b : bool)
| Number (lit : string)
| String (s : string)
| Array (l : list Value)
| Object (members : list (string * Value)).
End json.

Module oidc.
(** [oidc.IDTokenVerifier]: opaque to the extractor. *)
Record IDTokenVerifier : Type := mkVerifier {
  issuer : string;
  audience : string
}.

(** [oidc.IDToken]: the issuer claim and the raw claim payload.  The
    payload is [None] when the bytes are unset, [Some None] when they are
    not a JSON text and [Some (Some j)] when they spell the document [j]. *)
Record IDToken : Type := mkIDToken {
  Issuer : string;
  claims : option (option json.Value)
}.

(** [oidc.ClientContext(ctx, client)]. *)
Definition ClientContext (ctx : context.Context) (client : http.Client)
  : context.Context :=
  context.WithHTTPClient ctx client.
End oidc.

(* ================================================================== *)
(** ** Data of the package                                            *)
(* ================================================================== *)

Definition tokenFieldIDToken : string := "id_token".

Definition ErrMissingIDToken : error := errors.New "response missing ID token".

Record OIDCAuthenticationParams : Type := mkParams {
  Username : string;       (* json:"email" *)
  ClientID : string;       (* json:"clientID" *)
  ClientSecret : string;   (* json:"clientSecret" *)
  IDToken : string;        (* json:"idToken" *)
  RefreshToken : string;   (* json:"refreshToken" *)
  IssuerURL : string       (* json:"issuer" *)
}.

Record oidcExtractor : Type := mkExtractor {
  v : oidc.IDTokenVerifier;
  h : http.Client
}.

(* ================================================================== *)
(** ** Programs that call out of the package                          *)
(* ================================================================== *)

(** A program either returns, or performs a call [e] answered by a value of
    type [X] and continues. *)
Inductive Prog (E : Type -> Type) (A : Type) : Type :=
| Ret (a : A)
| Vis (X : Type) (e : E X) (k : X -> Prog E A).
Arguments Ret {E A} a.
Arguments Vis {E A X} e k.

Fixpoint bind {E A B} (p : Prog E A) (f : A -> Prog E B) : Prog E B :=
  match p with
  | Ret a => f a
  | Vis e k => Vis e (fun x => bind (k x) f)
  end.

Definition call {E X} (e : E X) : Prog E X := Vis e (fun x => Ret x).

Declare Scope prog_scope.
Delimit Scope prog_scope with prog.
Notation "x <- c ;; k" := (bind c (fun x => k))
  (at level 100, c at next level, right associativity) : prog_scope.

(** A call that was made, forgetting the type of its answer. *)
Inductive Called (E : Type -> Type) : Type :=
| called (X : Type) (e : E X).
Arguments called {E X} e.

(** Running a program against collaborators that answer each call, possibly
    changing the outside world [W].  The run yields the returned value, the
    final world and the calls in the order they were made. *)
Section Run.
Variable E : Type -> Type.
Variable W : Type.
Variable answer : forall X, E X -> W -> X * W.

Fixpoint run {A} (p : Prog E A) (w : W) : A * W * list (Called E) :=
  match p with
  | Ret a => (a, w, [])
  | Vis e k =>
      let xw := answer e w in
      let r := run (k (fst xw)) (snd xw) in
      (fst (fst r), snd (fst r), called e :: snd r)
  end.

Definition returned {A} (p : Prog E A) (w : W) : A := fst (fst (run p w)).
Definition world {A} (p : Prog E A) (w : W) : W := snd (fst (run p w)).
Definition calls {A} (p : Prog E A) (w : W) : list (Called E) := snd (run p w).
End Run.

(** The calls [Process] makes. *)
Inductive oidcE : Type -> Type :=
| Exchange (cfg : oauth2.Config) (octx : context.Context) (code : string)
    : oidcE (result oauth2.Token)
| Verify (vf : oidc.IDTokenVerifier) (ctx : context.Context) (rawIDToken : string)
    : oidcE (result oidc.IDToken)
| Claims (idt : oidc.IDToken) (into : OIDCAuthenticationParams)
    : oidcE (OIDCAuthenticationParams * error).

Definition isVerify (c : Called oidcE) : bool :=
  match c with
  | called (Verify _ _ _) => true
  | _ => false
  end.

(** The context a call was given, for the two calls that take one. *)
Definition contextOf (c : Called oidcE) : option context.Context :=
  match c with
  | called (Exchange _ octx _) => Some octx
  | called (Verify _ ctx _) => Some ctx
  | called (Claims _ _) => None
  end.

(* ================================================================== *)
(** ** The extractor                                                  *)
(* ================================================================== *)

Section Construction.
Variable E : Type -> Type.

(** [type Option], a function from a pointer to the extractor to an
    [error]: the function may change the extractor it is given and may call
    out; it yields the extractor as it left it and its error. *)
Definition Option : Type := oidcExtractor -> Prog E (oidcExtractor * error).

Definition HTTPClient (hc : http.Client) : Option :=
  fun o => Ret ({| v := v o; h := hc |}, None).

(** The loop [for _, o := range oo] of [NewOIDC]. *)
Fixpoint applyOptions (oe : oidcExtractor) (oo : list Option)
  : Prog E (option oidcExtractor * error) :=
  match oo with
  | [] => Ret (Some oe, None)
  | o :: rest =>
      (r <- o oe ;;
       match snd r with
       | Some err => Ret (None, errors.Wrap (Some err) "cannot apply OIDC option")
       | None => applyOptions (fst r) rest
       end)%prog
  end.

Definition NewOIDC (vf : oidc.IDTokenVerifier) (oo : list Option)
  : Prog E (option oidcExtractor * error) :=
  let oe := {| v := vf; h := http.DefaultClient |} in
  applyOptions oe oo.
End Construction.
Arguments HTTPClient {E} hc.

Definition Process (o : oidcExtractor) (ctx : context.Context)
    (cfg : oauth2.Config) (code : string)
  : Prog oidcE (option OIDCAuthenticationParams * error) :=
  let octx := oidc.ClientContext ctx (h o) in
  (r <- call (Exchange cfg octx code) ;;
   match r with
   | Failed err => Ret (None, errors.Wrap (Some err) "cannot exchange code for token")
   | Ok token =>
       let idok := assertString (oauth2.Extra token tokenFieldIDToken) in
       let id := fst idok in
       if negb (snd idok) then Ret (None, ErrMissingIDToken)
       else
         r <- call (Verify (v o) ctx id) ;;
         match r with
         | Failed err => Ret (None, errors.Wrap (Some err) "cannot verify ID token")
         | Ok idt =>
             let params := {| Username := "";
                              ClientID := oauth2.ClientID cfg;
                              ClientSecret := oauth2.ClientSecret cfg;
                              IDToken := id;
                              RefreshToken := oauth2.RefreshToken token;
                              IssuerURL := oidc.Issuer idt |} in
             r <- call (Claims idt params) ;;
             match snd r with
             | Some err =>
                 Ret (None, errors.Wrap (Some err) "cannot extract claims from ID token")
             | None => Ret (Some (fst r), None)
             end
         end
   end)%prog.

(* ================================================================== *)
(** ** Decoding claims into the result record                         *)
(* ================================================================== *)

(** [idt.Claims(params)] hands the claim payload to the JSON decoder, which
    fills the record field by field, keyed by claim name through the [json]
    tags of [OIDCAuthenticationParams].  The tags are those of the source;
    the decoder itself is not part of the package. *)

Inductive Field : Type :=
| FUsername | FClientID | FClientSecret | FIDToken | FRefreshToken | FIssuerURL.

(** The fields in the order the struct declares them. *)
Definition fields : list Field :=
  [FUsername; FClientID; FClientSecret; FIDToken; FRefreshToken; FIssuerURL].

(** The [json] tag of each field. *)
Definition tag (f : Field) : string :=
  match f with
  | FUsername => "email"
  | FClientID => "clientID"
  | FClientSecret => "clientSecret"
  | FIDToken => "idToken"
  | FRefreshToken => "refreshToken"
  | FIssuerURL => "issuer"
  end.

Definition get (f : Field) (p : OIDCAuthenticationParams) : string :=
  match f with
  | FUsername => Username p
  | FClientID => ClientID p
  | FClientSecret => ClientSecret p
  | FIDToken => IDToken p
  | FRefreshToken => RefreshToken p
  | FIssuerURL => IssuerURL p
  end.

Definition set (f : Field) (s : string) (p : OIDCAuthenticationParams)
  : OIDCAuthenticationParams :=
  let '(mkParams username clientID clientSecret idToken refreshToken issuerURL) := p in
  match f with
  | FUsername => mkParams s clientID clientSecret idToken refreshToken issuerURL
  | FClientID => mkParams username s clientSecret idToken refreshToken issuerURL
  | FClientSecret => mkParams username clientID s idToken refreshToken issuerURL
  | FIDToken => mkParams username clientID clientSecret s refreshToken issuerURL
  | FRefreshToken => mkParams username clientID clientSecret idToken s issuerURL
  | FIssuerURL => mkParams username clientID clientSecret idToken refreshToken s
  end.

Definition Field_eqb (f g : Field) : bool :=
  match f, g with
  | FUsername, FUsername | FClientID, FClientID | FClientSecret, FClientSecret
  | FIDToken, FIDToken | FRefreshToken, FRefreshToken | FIssuerURL, FIssuerURL => true
  | _, _ => false
  end.

Definition errFieldType : errors.value :=
  errors.foreign "json: cannot unmarshal value into Go struct field of type string".

Definition errRecordType : errors.value :=
  errors.foreign "json: cannot unmarshal value into Go value of type struct".

Section Decoding.
(** The decoder's comparison of a field name with an object key that
    ignores letter case. *)
Variable equalFold : string -> string -> bool.

(** Modelled from the spec: the lookup of the claims-decoding step, which
    is keyed by claim name via the tags.  A key is stored into the field
    whose tag is the key, else into the first field whose tag equals the
    key up to case; with an [equalFold] that is never true this is the
    exact match alone. *)
Fixpoint lookupField (key : string) (fs : list Field) (found : option Field)
  : option Field :=
  match fs with
  | [] => found
  | ff :: rest =>
      if String.eqb (tag ff) key then Some ff
      else lookupField key rest
             (match found with
              | None => if equalFold (tag ff) key then Some ff else None
              | Some _ => found
              end)
  end.

Definition fieldFor (key : string) : option Field := lookupField key fields None.

(** Modelled from the spec: one step of the claims-decoding step.  A
    claim matching a known field overwrites it, a claim naming no field is
    ignored.  The fields are strings: a string is stored, [null] changes
    nothing, any other value is a type mismatch, of which the first is
    remembered while decoding goes on. *)
Definition decodeMember (st : OIDCAuthenticationParams * error)
    (m : string * json.Value) : OIDCAuthenticationParams * error :=
  match fieldFor (fst m) with
  | None => st
  | Some f =>
      match snd m with
      | json.String s => (set f s (fst st), snd st)
      | json.Null => st
      | _ =>
          (fst st,
           match snd st with
           | None => Some errFieldType
           | Some e => Some e
           end)
      end
  end.

(** Modelled from the spec: [json.Unmarshal(data, params)], the generic
    claims-decoding step.  A payload that is not a JSON text is refused
    before anything is stored; an object is decoded member by member in
    the order of the text; [null] changes nothing; any other document
    cannot be decoded into a record. *)
Definition Unmarshal (data : option json.Value) (p : OIDCAuthenticationParams)
  : OIDCAuthenticationParams * error :=
  match data with
  | None => (p, Some (errors.foreign "json: syntax error"))
  | Some json.Null => (p, None)
  | Some (json.Object members) => fold_left decodeMember members (p, None)
  | Some _ =>
      (p, Some errRecordType)
  end.

(** Modelled from the spec: the method [Claims] of [oidc.IDToken], which
    decodes the verified token's claim set into the record.  Unset claim
    bytes are an error, anything else is handed to [Unmarshal]. *)
Definition IDToken_Claims (idt : oidc.IDToken) (p : OIDCAuthenticationParams)
  : OIDCAuthenticationParams * error :=
  match oidc.claims idt with
  | None => (p, Some (errors.foreign "oidc: claims not set"))
  | Some data => Unmarshal data p
  end.

(** The members of the claim payload when it is a JSON object. *)
Definition claimMembers (idt : oidc.IDToken) : list (string * json.Value) :=
  match oidc.claims idt with
  | Some (Some (json.Object members)) => members
  | _ => []
  end.

(** The key names field [f], exactly or up to case. *)
Definition names (f : Field) (key : string) : bool :=
  String.eqb (tag f) key || equalFold (tag f) key.

(** The value of the last string claim stored into field [f], if any. *)
Fixpoint lastClaim (f : Field) (members : list (string * json.Value))
  : option string :=
  match members with
  | [] => None
  | (key, val) :: rest =>
      match lastClaim f rest with
      | Some s => Some s
      | None =>
          match fieldFor key, val with
          | Some g, json.String s => if Field_eqb g f then Some s else None
          | _, _ => None
          end
      end
  end.

(** The network side: the provider's token endpoint and the verifier. *)
Record Provider (W : Type) : Type := mkProvider {
  exchange : oauth2.Config -> context.Context -> string -> W
             -> result oauth2.Token * W;
  verify : oidc.IDTokenVerifier -> context.Context -> string -> W
           -> result oidc.IDToken * W
}.

(** The collaborators with claims decoded as above. *)
Definition library {W : Type} (P : Provider W) (X : Type) (e : oidcE X)
  : W -> X * W :=
  match e in oidcE X return W -> X * W with
  | Exchange cfg octx code => exchange P cfg octx code
  | Verify vf ctx raw => verify P vf ctx raw
  | Claims idt into => fun w => (IDToken_Claims idt into, w)
  end.
End Decoding.

(** Letter-case folding over ASCII. *)
Definition lower (c : ascii) : ascii :=
  let n := nat_of_ascii c in
  if Nat.leb 65 n && Nat.leb n 90 then ascii_of_nat (n + 32) else c.

Fixpoint asciiEqualFold (a b : string) : bool :=
  match a, b with
  | EmptyString, EmptyString => true
  | String.String x a', String.String y b' =>
      Ascii.eqb (lower x) (lower y) && asciiEqualFold a' b'
  | _, _ => false
  end.

(* ================================================================== *)
(** ** The five ways a run of [Process] can go                        *)
(* ================================================================== *)

Section Outcomes.
Variable W : Type.
Variable answer : forall X, oidcE X -> W -> X * W.
Variables (o : oidcExtractor) (ctx : context.Context).
Variables (cfg : oauth2.Config) (code : string) (w : W).

Let octx := oidc.ClientContext ctx (h o).

(** The record as lines 80-86 fill it in, before claims are decoded. *)
Definition prepopulated (token : oauth2.Token) (id : string) (idt : oidc.IDToken)
  : OIDCAuthenticationParams :=
  {| Username := "";
     ClientID := oauth2.ClientID cfg;
     ClientSecret := oauth2.ClientSecret cfg;
     IDToken := id;
     RefreshToken := oauth2.RefreshToken token;
     IssuerURL := oidc.Issuer idt |}.

Local Ltac step := cbn [run bind call fst snd negb assertString].

Lemma run_exchange_failed err w1 :
  answer (Exchange cfg octx code) w = (Failed err, w1) ->
  run answer (Process o ctx cfg code) w =
    ((None, Some (errors.withStack err "cannot exchange code for token")), w1,
     [called (Exchange cfg octx code)]).
Proof.
  intros Hex. unfold Process. step. fold octx. rewrite Hex. reflexivity.
Qed.

Lemma run_missing_id_token token w1 :
  answer (Exchange cfg octx code) w = (Ok token, w1) ->
  snd (assertString (oauth2.Extra token tokenFieldIDToken)) = false ->
  run answer (Process o ctx cfg code) w =
    ((None, ErrMissingIDToken), w1, [called (Exchange cfg octx code)]).
Proof.
  intros Hex Hid. unfold Process. step. fold octx. rewrite Hex. step.
  rewrite Hid. reflexivity.
Qed.

Lemma run_verify_failed token w1 id err w2 :
  answer (Exchange cfg octx code) w = (Ok token, w1) ->
  oauth2.Extra token tokenFieldIDToken = AnyString id ->
  answer (Verify (v o) ctx id) w1 = (Failed err, w2) ->
  run answer (Process o ctx cfg code) w =
    ((None, Some (errors.withStack err "cannot verify ID token")), w2,
     [called (Exchange cfg octx code); called (Verify (v o) ctx id)]).
Proof.
  intros Hex Hid Hv. unfold Process. step. fold octx. rewrite Hex. step.
  rewrite Hid. step. rewrite Hv. reflexivity.
Qed.

Lemma run_claims_failed token w1 id idt w2 p err w3 :
  answer (Exchange cfg octx code) w = (Ok token, w1) ->
  oauth2.Extra token tokenFieldIDToken = AnyString id ->
  answer (Verify (v o) ctx id) w1 = (Ok idt, w2) ->
  answer (Claims idt (prepopulated token id idt)) w2 = ((p, Some err), w3) ->
  run answer (Process o ctx cfg code) w =
    ((None, Some (errors.withStack err "cannot extract claims from ID token")), w3,
     [called (Exchange cfg octx code); called (Verify (v o) ctx id);
      called (Claims idt (prepopulated token id idt))]).
Proof.
  intros Hex Hid Hv Hc. unfold Process. step. fold octx. rewrite Hex. step.
  rewrite Hid. step. rewrite Hv. step.
  unfold prepopulated in Hc. rewrite Hc. reflexivity.
Qed.

Lemma run_success token w1 id idt w2 p w3 :
  answer (Exchange cfg octx code) w = (Ok token, w1) ->
  oauth2.Extra token tokenFieldIDToken = AnyString id ->
  answer (Verify (v o) ctx id) w1 = (Ok idt, w2) ->
  answer (Claims idt (prepopulated token id idt)) w2 = ((p, None), w3) ->
  run answer (Process o ctx cfg code) w =
    ((Some p, None), w3,
     [called (Exchange cfg octx code); called (Verify (v o) ctx id);
      called (Claims idt (prepopulated token id idt))]).
Proof.
  intros Hex Hid Hv Hc. unfold Process. step. fold octx. rewrite Hex. step.
  rewrite Hid. step. rewrite Hv. step.
  unfold prepopulated in Hc. rewrite Hc. reflexivity.
Qed.

(** Every run is one of the five. *)
Inductive Outcome : Type :=
| ExchangeFailed (err : errors.value) (w1 : W)
| MissingIDToken (token : oauth2.Token) (w1 : W)
| VerifyFailed (token : oauth2.Token) (id : string) (err : errors.value) (w2 : W)
| ClaimsFailed (token : oauth2.Token) (id : string) (idt : oidc.IDToken)
    (err : errors.value) (w3 : W)
| Success (token : oauth2.Token) (id : string) (idt : oidc.IDToken)
    (p : OIDCAuthenticationParams) (w3 : W).

Definition runOf (oc : Outcome)
  : (option OIDCAuthenticationParams * error) * W * list (Called oidcE) :=
  let ex := called (Exchange cfg octx code) in
  match oc with
  | ExchangeFailed err w1 =>
      ((None, Some (errors.withStack err "cannot exchange code for token")), w1, [ex])
  | MissingIDToken _ w1 => ((None, ErrMissingIDToken), w1, [ex])
  | VerifyFailed _ id err w2 =>
      ((None, Some (errors.withStack err "cannot verify ID token")), w2,
       [ex; called (Verify (v o) ctx id)])
  | ClaimsFailed token id idt err w3 =>
      ((None, Some (errors.withStack err "cannot extract claims from ID token")), w3,
       [ex; called (Verify (v o) ctx id);
        called (Claims idt (prepopulated token id idt))])
  | Success token id idt p w3 =>
      ((Some p, None), w3,
       [ex; called (Verify (v o) ctx id);
        called (Claims idt (prepopulated token id idt))])
  end.

(** What the collaborators answered in a run with the given outcome. *)
Definition answered (oc : Outcome) : Prop :=
  match oc with
  | ExchangeFailed err w1 =>
      answer (Exchange cfg octx code) w = (Failed err, w1)
  | MissingIDToken token w1 =>
      answer (Exchange cfg octx code) w = (Ok token, w1) /\
      snd (assertString (oauth2.Extra token tokenFieldIDToken)) = false
  | VerifyFailed token id err w2 =>
      exists w1,
        answer (Exchange cfg octx code) w = (Ok token, w1) /\
        oauth2.Extra token tokenFieldIDToken = AnyString id /\
        answer (Verify (v o) ctx id) w1 = (Failed err, w2)
  | ClaimsFailed token id idt err w3 =>
      exists w1 w2 p,
        answer (Exchange cfg octx code) w = (Ok token, w1) /\
        oauth2.Extra token tokenFieldIDToken = AnyString id /\
        answer (Verify (v o) ctx id) w1 = (Ok idt, w2) /\
        answer (Claims idt (prepopulated token id idt)) w2 = ((p, Some err), w3)
  | Success token id idt p w3 =>
      exists w1 w2,
        answer (Exchange cfg octx code) w = (Ok token, w1) /\
        oauth2.Extra token tokenFieldIDToken = AnyString id /\
        answer (Verify (v o) ctx id) w1 = (Ok idt, w2) /\
        answer (Claims idt (prepopulated token id idt)) w2 = ((p, None), w3)
  end.

Lemma assertString_true x :
  snd (assertString x) = true -> x = AnyString (fst (assertString x)).
Proof. destruct x; cbn; intros Hx; try discriminate; reflexivity. Qed.

Lemma run_cases :
  exists oc, answered oc /\ run answer (Process o ctx cfg code) w = runOf oc.
Proof.
  destruct (answer (Exchange cfg octx code) w) as [[token | err] w1] eqn:Hex.
  2:{ exists (ExchangeFailed err w1). split; [exact Hex|].
      now apply run_exchange_failed. }
  destruct (snd (assertString (oauth2.Extra token tokenFieldIDToken))) eqn:Hok.
  2:{ exists (MissingIDToken token w1). split; [now split|].
      now apply run_missing_id_token with (token := token). }
  apply assertString_true in Hok.
  set (id := fst (assertString (oauth2.Extra token tokenFieldIDToken))) in *.
  destruct (answer (Verify (v o) ctx id) w1) as [[idt | err] w2] eqn:Hv.
  2:{ exists (VerifyFailed token id err w2). split; [now exists w1|].
      now apply run_verify_failed with (token := token) (w1 := w1). }
  destruct (answer (Claims idt (prepopulated token id idt)) w2)
    as [[p [err|]] w3] eqn:Hc.
  - exists (ClaimsFailed token id idt err w3). split; [now exists w1, w2, p|].
    now apply run_claims_failed with (w1 := w1) (w2 := w2) (p := p).
  - exists (Success token id idt p w3). split; [now exists w1, w2|].
    now apply run_success with (w1 := w1) (w2 := w2).
Qed.
End Outcomes.

(* ================================================================== *)
(** ** A provider to run the extractor against                        *)
(* ================================================================== *)

Module Scenario.
Definition cfg : oauth2.Config :=
  oauth2.mkConfig "abc" "xyz" "https://issuer.example/token"
    "https://kuberos.example/ui" ["openid"; "email"].

Definition code : string := "auth-code-1".
Definition jwt : string := "<valid-jwt>".

Definition vf : oidc.IDTokenVerifier :=
  oidc.mkVerifier "https://issuer.example" "abc".

Definition extractor : oidcExtractor := mkExtractor vf (http.ClientAt 7).

(** A token endpoint that redeems [code] for [token] and refuses any other
    code, and a verifier that accepts [jwt] as [idt] and nothing else. *)
Definition provider (token : oauth2.Token) (idt : result oidc.IDToken)
  : Provider unit :=
  {| exchange := fun _ _ c w =>
       if String.eqb c code then (Ok token, w)
       else (Failed (errors.foreign "oauth2: cannot fetch token: 400 Bad Request"), w);
     verify := fun _ _ raw w =>
       if String.eqb raw jwt then (idt, w)
       else (Failed (errors.foreign "oidc: malformed jwt"), w) |}.

(** Token responses: with an ID token, without one, and with one that is
    not a string. *)
Definition tokenWith (idToken : Any) : oauth2.Token :=
  oauth2.mkToken "at1" "r1"
    (fun key => if String.eqb key "id_token" then idToken else AnyNil).

Definition token : oauth2.Token := tokenWith (AnyString jwt).
Definition tokenNoID : oauth2.Token := tokenWith AnyNil.
Definition tokenNumericID : oauth2.Token := tokenWith (AnyInt64 42).

Definition idTokenOf (members : list (string * json.Value)) : oidc.IDToken :=
  oidc.mkIDToken "https://issuer.example" (Some (Some (json.Object members))).

Definition iss : string * json.Value :=
  ("iss", json.String "https://issuer.example").

(** The claims of the specification's scenario. *)
Definition idt : oidc.IDToken :=
  idTokenOf [iss; ("email", json.String "user@example.com")].

(** Claims without an e-mail address. *)
Definition idtNoEmail : oidc.IDToken :=
  idTokenOf [iss; ("sub", json.String "1234")].

(** Claims whose e-mail address is not a string. *)
Definition idtBadEmail : oidc.IDToken :=
  idTokenOf [iss; ("email", json.Number "42")].

(** Claims that carry names of the record's own fields. *)
Definition idtClientID : oidc.IDToken :=
  idTokenOf [iss; ("email", json.String "user@example.com");
             ("clientID", json.String "evil")].

Definition idtIssuer : oidc.IDToken :=
  idTokenOf [iss; ("issuer", json.String "https://other.example")].

Definition collaborators (tok : oauth2.Token) (r : result oidc.IDToken)
  : forall X, oidcE X -> unit -> X * unit :=
  library asciiEqualFold (provider tok r).
End Scenario.

(** The specification's concrete scenario. *)
Example Process_scenario :
  returned (Scenario.collaborators Scenario.token (Ok Scenario.idt))
    (Process Scenario.extractor context.Background Scenario.cfg Scenario.code) tt
  = (Some {| Username := "user@example.com";
             ClientID := "abc";
             ClientSecret := "xyz";
             IDToken := "<valid-jwt>";
             RefreshToken := "r1";
             IssuerURL := "https://issuer.example" |}, None).
Proof. reflexivity. Qed.

Example Process_scenario_no_id_token :
  returned (Scenario.collaborators Scenario.tokenNoID (Ok Scenario.idt))
    (Process Scenario.extractor context.Background Scenario.cfg Scenario.code) tt
  = (None, ErrMissingIDToken).
Proof. reflexivity. Qed.

(* ================================================================== *)
(** ** Error paths of [Process]                                       *)
(* ================================================================== *)

Section ErrorPaths.
Variable W : Type.
Variable answer : forall X, oidcE X -> W -> X * W.
Variables (o : oidcExtractor) (ctx : context.Context).
Variables (cfg : oauth2.Config) (code : string) (w : W).

Let octx := oidc.ClientContext ctx (h o).

(** C3.  The result of [Process] is nil exactly when its error is not:
    every failing path returns no record, and the successful path returns a
    record with a nil error. *)
Theorem Process_result_nil_iff_error :
  let r := returned answer (Process o ctx cfg code) w in
  fst r = None <-> snd r <> None.
Proof.
  destruct (run_cases answer o ctx cfg code w) as [oc [_ Hrun]].
  unfold returned. rewrite Hrun.
  destruct oc; cbv [runOf fst snd ErrMissingIDToken errors.New];
    split; intros Hr; congruence.
Qed.

(** C6.  When the token exchange fails, [Process] returns the error wrapped
    with the exchange-stage description, and the exchange is the only call
    made: the verifier is never invoked. *)
Theorem Process_exchange_failure_skips_verification err w1 :
  answer (Exchange cfg octx code) w = (Failed err, w1) ->
  returned answer (Process o ctx cfg code) w
    = (None, Some (errors.withStack err "cannot exchange code for token"))
  /\ calls answer (Process o ctx cfg code) w = [called (Exchange cfg octx code)]
  /\ existsb isVerify (calls answer (Process o ctx cfg code) w) = false.
Proof.
  intros Hex. unfold returned, calls.
  rewrite (run_exchange_failed answer o ctx cfg code w Hex).
  repeat split.
Qed.

(** C7.  When the exchange succeeds with a string [id_token] and the
    verifier rejects it, [Process] returns no record and the verifier's
    error wrapped with the verification-stage description. *)
Theorem Process_verification_failure token w1 id err w2 :
  answer (Exchange cfg octx code) w = (Ok token, w1) ->
  oauth2.Extra token tokenFieldIDToken = AnyString id ->
  answer (Verify (v o) ctx id) w1 = (Failed err, w2) ->
  returned answer (Process o ctx cfg code) w
    = (None, Some (errors.withStack err "cannot verify ID token")).
Proof.
  intros Hex Hid Hv. unfold returned.
  erewrite run_verify_failed by eassumption. reflexivity.
Qed.

(** C8.  When exchange and verification succeed and decoding the claims
    into the record fails, [Process] returns no record and the decoder's
    error wrapped with the claims-extraction-stage description. *)
Theorem Process_claims_failure token w1 id idt w2 p err w3 :
  answer (Exchange cfg octx code) w = (Ok token, w1) ->
  oauth2.Extra token tokenFieldIDToken = AnyString id ->
  answer (Verify (v o) ctx id) w1 = (Ok idt, w2) ->
  answer (Claims idt (prepopulated cfg token id idt)) w2 = ((p, Some err), w3) ->
  returned answer (Process o ctx cfg code) w
    = (None, Some (errors.withStack err "cannot extract claims from ID token")).
Proof.
  intros Hex Hid Hv Hc. unfold returned.
  erewrite run_claims_failed by eassumption. reflexivity.
Qed.
End ErrorPaths.

(** Witness of C6: the provider refuses the code ["stale-code"]. *)
Lemma Process_exchange_failure_skips_verification_witness :
  let answer := Scenario.collaborators Scenario.token (Ok Scenario.idt) in
  let err := errors.foreign "oauth2: cannot fetch token: 400 Bad Request" in
  answer _ (Exchange Scenario.cfg
              (oidc.ClientContext context.Background (h Scenario.extractor))
              "stale-code") tt = (Failed err, tt)
  /\ returned answer
       (Process Scenario.extractor context.Background Scenario.cfg "stale-code") tt
     = (None, Some (errors.withStack err "cannot exchange code for token")).
Proof.
  split; [reflexivity|].
  apply (@Process_exchange_failure_skips_verification unit
           (Scenario.collaborators Scenario.token (Ok Scenario.idt))
           Scenario.extractor context.Background Scenario.cfg "stale-code" tt
           (errors.foreign "oauth2: cannot fetch token: 400 Bad Request") tt).
  reflexivity.
Defined.

(** Witness of C7: the verifier finds the token expired. *)
Lemma Process_verification_failure_witness :
  let expired := errors.foreign "oidc: token is expired" in
  returned (Scenario.collaborators Scenario.token (Failed expired))
    (Process Scenario.extractor context.Background Scenario.cfg Scenario.code) tt
  = (None, Some (errors.withStack expired "cannot verify ID token")).
Proof.
  apply (@Process_verification_failure unit
           (Scenario.collaborators Scenario.token
              (Failed (errors.foreign "oidc: token is expired")))
           Scenario.extractor context.Background Scenario.cfg Scenario.code tt
           Scenario.token tt Scenario.jwt
           (errors.foreign "oidc: token is expired") tt);
    reflexivity.
Defined.

(** Witness of C8: the [email] claim is a number. *)
Lemma Process_claims_failure_witness :
  let mismatch := errFieldType in
  returned (Scenario.collaborators Scenario.token (Ok Scenario.idtBadEmail))
    (Process Scenario.extractor context.Background Scenario.cfg Scenario.code) tt
  = (None, Some (errors.withStack mismatch "cannot extract claims from ID token")).
Proof.
  apply (@Process_claims_failure unit
           (Scenario.collaborators Scenario.token (Ok Scenario.idtBadEmail))
           Scenario.extractor context.Background Scenario.cfg Scenario.code tt
           Scenario.token tt Scenario.jwt Scenario.idtBadEmail tt
           (prepopulated Scenario.cfg Scenario.token Scenario.jwt Scenario.idtBadEmail)
           errFieldType tt);
    reflexivity.
Defined.

(* ================================================================== *)
(** ** The missing-ID-token sentinel                                  *)
(* ================================================================== *)

(** The dynamic value is a string. *)
Definition isString (x : Any) : bool :=
  match x with
  | AnyString _ => true
  | _ => false
  end.

Lemma assertString_isString x : snd (assertString x) = isString x.
Proof. destruct x; reflexivity. Qed.



(** A response whose [id_token] is a number is treated the same way. *)
Example Process_numeric_id_token :
  returned (Scenario.collaborators Scenario.tokenNumericID (Ok Scenario.idt))
    (Process Scenario.extractor context.Background Scenario.cfg Scenario.code) tt
  = (None, ErrMissingIDToken).
Proof. reflexivity. Qed.

(* ================================================================== *)
(** ** What [Extra] returns for a token response                      *)
(* ================================================================== *)

(** The method [Extra] of [oauth2.Token] belongs to golang.org/x/oauth2, not
    to the package.  It reads the raw response the token was built from: a
    JSON object, the values of a form-encoded body, or nothing. *)
Module response.
Inductive Raw : Type :=
| JSONObject (members : list (string * Any))
| FormValues (values : list (string * list string))
| Unset.

Fixpoint lookup {A : Type} (key : string) (m : list (string * A)) : option A :=
  match m with
  | [] => None
  | (k, x) :: rest => if String.eqb k key then Some x else lookup key rest
  end.

(** [url.Values.Get]: the first value under the key, the empty string when
    there is none. *)
Definition Get (values : list (string * list string)) (key : string) : string :=
  match lookup key values with
  | Some (x :: _) => x
  | _ => ""
  end.

Section Extra.
(** The number [Extra] reads a form value as, when its attempts with
    [strconv.ParseInt] and [strconv.ParseFloat] on the trimmed value
    succeed. *)
Variable numeric : string -> option Any.

(** A key missing from a JSON object gives nil.  A form value is returned
    as a number when it reads as one and as the string itself otherwise, so
    a key missing from a form-encoded body gives a string, the empty one. *)
Definition Extra (raw : Raw) (key : string) : Any :=
  match raw with
  | JSONObject members =>
      match lookup key members with
      | Some x => x
      | None => AnyNil
      end
  | FormValues values =>
      let val := Get values key in
      match numeric val with
      | Some x => x
      | None => AnyString val
      end
  | Unset => AnyNil
  end.

(** The token of a response. *)
Definition tokenOf (access refresh : string) (raw : Raw) : oauth2.Token :=
  oauth2.mkToken access refresh (Extra raw).
End Extra.

(** Reading an unsigned decimal numeral; no other spelling is read as a
    number here. *)
Definition digit (c : ascii) : option nat :=
  let n := nat_of_ascii c in
  if Nat.leb 48 n && Nat.leb n 57 then Some (n - 48) else None.

Fixpoint numeral (acc : nat) (s : string) : option nat :=
  match s with
  | EmptyString => Some acc
  | String.String c rest =>
      match digit c with
      | Some d => numeral (10 * acc + d) rest
      | None => None
      end
  end.

Definition decimal (s : string) : option Any :=
  match s with
  | EmptyString => None
  | _ => option_map AnyInt64 (numeral 0 s)
  end.
End response.

(** A JSON response without [id_token], or with one that is not a string,
    does give the sentinel. *)
Example Process_json_response_without_id_token :
  let raw := response.JSONObject
               [("access_token", AnyString "at1"); ("refresh_token", AnyString "r1")] in
  let token := response.tokenOf response.decimal "at1" "r1" raw in
  returned (Scenario.collaborators token (Ok Scenario.idt))
    (Process Scenario.extractor context.Background Scenario.cfg Scenario.code) tt
  = (None, ErrMissingIDToken).
Proof. reflexivity. Qed.


(* ================================================================== *)
(** ** Which context each step is given                               *)
(* ================================================================== *)

(** The call, if it takes a context, takes one carrying the client [hc]. *)
Definition usesTransport (hc : http.Client) (c : Called oidcE) : Prop :=
  forall cx, contextOf c = Some cx -> context.HTTPClientOf cx = Some hc.

(** The context [Process] hands to the call: the derived one to the
    exchange, the caller's own to the verifier. *)
Definition givenContext (o : oidcExtractor) (ctx : context.Context)
    (c : Called oidcE) : Prop :=
  match c with
  | called e =>
      match e with
      | Exchange _ octx _ => octx = oidc.ClientContext ctx (h o)
      | Verify _ cx _ => cx = ctx
      | Claims _ _ => True
      end
  end.

(** C4 as stated fails: with a background context the verifier is called
    with that background context, which carries no client at all. *)
Lemma Process_verifier_context_lacks_transport :
  ~ (forall c,
       In c (calls (Scenario.collaborators Scenario.token (Ok Scenario.idt))
               (Process Scenario.extractor context.Background
                  Scenario.cfg Scenario.code) tt) ->
       usesTransport (h Scenario.extractor) c).
Proof.
  intros Hall.
  specialize (Hall (called (Verify Scenario.vf context.Background Scenario.jwt))).
  assert (Hin : In (called (Verify Scenario.vf context.Background Scenario.jwt))
                  (calls (Scenario.collaborators Scenario.token (Ok Scenario.idt))
                     (Process Scenario.extractor context.Background
                        Scenario.cfg Scenario.code) tt)).
  { right. left. reflexivity. }
  specialize (Hall Hin context.Background eq_refl). discriminate Hall.
Qed.

(** C4, amended.  [Process] binds the extractor's client into a context
    derived from the caller's; the exchange is the first call and is given
    that derived context, in which the client is found; the verifier is given
    the caller's own context. *)
Theorem Process_contexts
    (W : Type) (answer : forall X, oidcE X -> W -> X * W)
    (o : oidcExtractor) (ctx : context.Context) (cfg : oauth2.Config)
    (code : string) (w : W) :
  let tr := calls answer (Process o ctx cfg code) w in
  context.HTTPClientOf (oidc.ClientContext ctx (h o)) = Some (h o)
  /\ (exists rest,
        tr = called (Exchange cfg (oidc.ClientContext ctx (h o)) code) :: rest)
  /\ Forall (givenContext o ctx) tr.
Proof.
  destruct (run_cases answer o ctx cfg code w) as [oc [_ Hrun]].
  unfold calls. rewrite Hrun.
  split; [reflexivity|].
  destruct oc; cbv [runOf snd]; (split; [eexists; reflexivity|]);
    repeat constructor.
Qed.

(* ================================================================== *)
(** ** Construction                                                   *)
(* ================================================================== *)

Section RunLaws.
Variable E : Type -> Type.
Variable W : Type.
Variable answer : forall X, E X -> W -> X * W.

Lemma run_bind A B (p : Prog E A) (f : A -> Prog E B) (w : W) :
  run answer (bind p f) w =
    (fst (fst (run answer (f (returned answer p w)) (world answer p w))),
     snd (fst (run answer (f (returned answer p w)) (world answer p w))),
     (calls answer p w
        ++ calls answer (f (returned answer p w)) (world answer p w))%list).
Proof.
  revert w. induction p as [a | X e k IH]; intros w.
  - unfold returned, world, calls. cbn [bind run fst snd app].
    now destruct (run answer (f a) w) as [[b w2] t2].
  - cbn [bind run]. rewrite IH. unfold returned, world, calls. cbn [run fst snd].
    reflexivity.
Qed.

Lemma returned_bind A B (p : Prog E A) (f : A -> Prog E B) (w : W) :
  returned answer (bind p f) w
    = returned answer (f (returned answer p w)) (world answer p w).
Proof. unfold returned at 1. now rewrite run_bind. Qed.

Lemma world_bind A B (p : Prog E A) (f : A -> Prog E B) (w : W) :
  world answer (bind p f) w
    = world answer (f (returned answer p w)) (world answer p w).
Proof. unfold world at 1. now rewrite run_bind. Qed.
End RunLaws.

Lemma last_cons_default A (a d : A) (l : list A) : last (a :: l) d = last l a.
Proof.
  revert a d. induction l as [| b l IH]; intros a d; [reflexivity|].
  change (last (a :: b :: l) d) with (last (b :: l) d).
  now rewrite (IH b d), (IH b a).
Qed.

Section ConstructionLaws.
Variable E : Type -> Type.

Lemma applyOptions_HTTPClient (hs : list http.Client) (oe : oidcExtractor) :
  applyOptions oe (map (@HTTPClient E) hs)
    = Ret (Some {| v := v oe; h := last hs (h oe) |}, None).
Proof.
  revert oe. induction hs as [| hc hs IH]; intros oe.
  - destruct oe; reflexivity.
  - cbn [map applyOptions HTTPClient bind snd fst]. rewrite IH.
    cbn [v h]. now rewrite last_cons_default.
Qed.

Variable W : Type.
Variable answer : forall X, E X -> W -> X * W.

(** An option of the list failed: the options before it, applied in order
    to the fresh extractor, all returned nil and left the extractor [oe];
    the option then returned [err] on [oe]. *)
Definition optionFailed (start : oidcExtractor) (oo : list (Option E)) (w : W)
    (err : errors.value) : Prop :=
  exists pre o post oe,
    oo = (pre ++ o :: post)%list
    /\ returned answer (applyOptions start pre) w = (Some oe, None)
    /\ snd (returned answer (o oe) (world answer (applyOptions start pre) w))
         = Some err.

Lemma applyOptions_outcome (oo : list (Option E)) (oe : oidcExtractor) (w : W) :
  let r := returned answer (applyOptions oe oo) w in
  (exists oe', r = (Some oe', None))
  \/ (exists err, r = (None, Some (errors.withStack err "cannot apply OIDC option"))
                  /\ optionFailed oe oo w err).
Proof.
  revert oe w. induction oo as [| o rest IH]; intros oe w.
  - left. exists oe. reflexivity.
  - cbn zeta. cbn [applyOptions]. rewrite returned_bind.
    destruct (snd (returned answer (o oe) w)) as [err|] eqn:Herr.
    + right. exists err. split; [reflexivity|].
      exists [], o, rest, oe. repeat split. exact Herr.
    + destruct (IH (fst (returned answer (o oe) w)) (world answer (o oe) w))
        as [Hok | [err [Hr Hfail]]]; [left; exact Hok|].
      right. exists err. split; [exact Hr|].
      destruct Hfail as (pre & o' & post & oe' & Hoo & Hpre & Ho').
      exists (o :: pre), o', post, oe'. split; [now rewrite Hoo|].
      cbn [applyOptions]. rewrite returned_bind, world_bind, Herr.
      split; assumption.
Qed.

(** The other direction: an option that fails after options that all
    succeeded makes the loop return nil and that option's error, wrapped. *)
Lemma applyOptions_failed (oo : list (Option E)) (start : oidcExtractor) (w : W)
    (err : errors.value) :
  optionFailed start oo w err ->
  returned answer (applyOptions start oo) w
    = (None, Some (errors.withStack err "cannot apply OIDC option")).
Proof.
  intros (pre & o & post & oe & -> & Hpre & Herr).
  revert start w Hpre Herr.
  induction pre as [| a pre IH]; intros start w Hpre Herr.
  - cbn [applyOptions returned run fst snd world] in Hpre, Herr.
    injection Hpre as ->.
    cbn [app applyOptions]. rewrite returned_bind, Herr. reflexivity.
  - cbn [app applyOptions] in *.
    rewrite returned_bind in Hpre. rewrite world_bind in Herr.
    rewrite returned_bind.
    destruct (snd (returned answer (a start) w)) as [e|].
    + discriminate Hpre.
    + now apply IH.
Qed.
End ConstructionLaws.

(** C10.  Built from [HTTPClient] options only, [NewOIDC] is a program that
    returns at once, without a single call out of the package: a non-nil
    extractor holding the verifier and the client of the last option, or the
    default client when there is none, with a nil error.  With arbitrary
    options the result is nil exactly when the error is not; an error
    arises only from an option that returned one, wrapped with the
    option-application description; and an option that returns an error
    after options that all returned nil does make [NewOIDC] return a nil
    extractor and that error so wrapped. *)
Theorem NewOIDC_construction :
  (forall (E : Type -> Type) (vf : oidc.IDTokenVerifier) (hs : list http.Client),
     NewOIDC vf (map (@HTTPClient E) hs)
       = Ret (Some {| v := vf; h := last hs http.DefaultClient |}, None))
  /\
  (forall (E : Type -> Type) (W : Type) (answer : forall X, E X -> W -> X * W)
          (vf : oidc.IDTokenVerifier) (oo : list (Option E)) (w : W),
     let r := returned answer (NewOIDC vf oo) w in
     let fresh := {| v := vf; h := http.DefaultClient |} in
     (fst r = None <-> snd r <> None)
     /\ (forall e, snd r = Some e ->
           exists err,
             e = errors.withStack err "cannot apply OIDC option"
             /\ optionFailed answer fresh oo w err)
     /\ (forall err, optionFailed answer fresh oo w err ->
           r = (None, Some (errors.withStack err "cannot apply OIDC option")))).
Proof.
  split.
  - intros E vf hs. unfold NewOIDC. now rewrite applyOptions_HTTPClient.
  - intros E W answer vf oo w. unfold NewOIDC. cbn zeta.
    split; [|split].
    + destruct (applyOptions_outcome answer oo {| v := vf; h := http.DefaultClient |} w)
        as [[oe Hr] | [err [Hr Hfail]]]; cbn zeta in Hr; rewrite Hr; cbn [fst snd];
        split; intros Hn; congruence.
    + destruct (applyOptions_outcome answer oo {| v := vf; h := http.DefaultClient |} w)
        as [[oe Hr] | [err [Hr Hfail]]]; cbn zeta in Hr; rewrite Hr; cbn [fst snd];
        intros e He; [discriminate He|].
      exists err. split; [congruence | exact Hfail].
    + intros err Hfail. now apply applyOptions_failed.
Qed.

(** Two [HTTPClient] options: the later one wins, and nothing is called. *)
Example NewOIDC_last_client_wins :
  run (Scenario.collaborators Scenario.token (Ok Scenario.idt))
    (NewOIDC Scenario.vf [HTTPClient (http.ClientAt 1); HTTPClient (http.ClientAt 2)])
    tt
  = ((Some {| v := Scenario.vf; h := http.ClientAt 2 |}, None), tt, []).
Proof. reflexivity. Qed.

(** An option that fails after a successful one. *)
Example NewOIDC_failing_option :
  returned (Scenario.collaborators Scenario.token (Ok Scenario.idt))
    (NewOIDC Scenario.vf
       [HTTPClient (http.ClientAt 1);
        fun oe => Ret (oe, Some (errors.foreign "unsupported"))]%list)
    tt
  = (None, Some (errors.withStack (errors.foreign "unsupported")
                   "cannot apply OIDC option")).
Proof. reflexivity. Qed.

(* ================================================================== *)
(** ** What decoding the claims does to the record                    *)
(* ================================================================== *)

Lemma get_set (f g : Field) (s : string) (p : OIDCAuthenticationParams) :
  get f (set g s p) = if Field_eqb g f then s else get f p.
Proof. destruct p, f, g; reflexivity. Qed.

Lemma Field_eqb_true (f g : Field) : Field_eqb g f = true -> g = f.
Proof. destruct f, g; cbn; intros Hfg; try discriminate; reflexivity. Qed.

Lemma existsb_false A (g : A -> bool) (l : list A) :
  existsb g l = false -> forall x, In x l -> g x = false.
Proof.
  induction l as [| a l IH]; cbn; intros Hex x Hin; [contradiction|].
  apply orb_false_iff in Hex. destruct Hex as [Ha Hl].
  destruct Hin as [<- | Hin]; [exact Ha | now apply IH].
Qed.

Section DecodingLaws.
Variable equalFold : string -> string -> bool.

(** Some string claim of the token is stored into field [f]. *)
Definition claimed (f : Field) (idt : oidc.IDToken) : bool :=
  existsb (fun m => match snd m with
                    | json.String _ => names equalFold f (fst m)
                    | _ => false
                    end)
          (claimMembers idt).

(** Some claim of the token, whatever its value, bears the name of [f]. *)
Definition carries (f : Field) (idt : oidc.IDToken) : bool :=
  existsb (fun m => names equalFold f (fst m)) (claimMembers idt).

Lemma lookupField_names key f fs found :
  lookupField equalFold key fs found = Some f ->
  found = Some f \/ names equalFold f key = true.
Proof.
  revert found. induction fs as [| ff rest IH]; intros found; cbn [lookupField].
  - now left.
  - destruct (String.eqb (tag ff) key) eqn:Heq.
    + intros [= <-]. right. unfold names. now rewrite Heq.
    + intros Hl. apply IH in Hl. destruct Hl as [Hl | Hl]; [|now right].
      destruct found as [g|]; [now left|].
      destruct (equalFold (tag ff) key) eqn:Hfold; [|discriminate Hl].
      injection Hl as <-. right. unfold names.
      rewrite Hfold. apply orb_true_r.
Qed.

Lemma fieldFor_names key f :
  fieldFor equalFold key = Some f -> names equalFold f key = true.
Proof.
  intros Hf. apply lookupField_names in Hf.
  destruct Hf as [Hf | Hf]; [discriminate Hf | exact Hf].
Qed.

Lemma decodeMember_get f st key val :
  get f (fst (decodeMember equalFold st (key, val))) =
    match fieldFor equalFold key, val with
    | Some g, json.String s => if Field_eqb g f then s else get f (fst st)
    | _, _ => get f (fst st)
    end.
Proof.
  unfold decodeMember. cbn [fst snd].
  destruct (fieldFor equalFold key) as [g|]; [|reflexivity].
  destruct val; cbn [fst]; try reflexivity. apply get_set.
Qed.

Lemma decode_fold_get f members st :
  get f (fst (fold_left (decodeMember equalFold) members st)) =
    match lastClaim equalFold f members with
    | Some s => s
    | None => get f (fst st)
    end.
Proof.
  revert st. induction members as [| [key val] rest IH]; intros st; [reflexivity|].
  cbn [fold_left]. rewrite IH. cbn [lastClaim].
  destruct (lastClaim equalFold f rest) as [s|]; [reflexivity|].
  rewrite decodeMember_get.
  destruct (fieldFor equalFold key) as [g|]; [|reflexivity].
  destruct val; try reflexivity.
  now destruct (Field_eqb g f).
Qed.

Lemma Claims_success idt p :
  snd (IDToken_Claims equalFold idt p) = None ->
  IDToken_Claims equalFold idt p
    = fold_left (decodeMember equalFold) (claimMembers idt) (p, None).
Proof.
  unfold IDToken_Claims, claimMembers, Unmarshal.
  destruct (oidc.claims idt) as [[j|]|]; cbn [snd]; try discriminate.
  destruct j; cbn [snd fold_left]; try discriminate; reflexivity.
Qed.

Lemma lastClaim_none f members :
  (forall key s, In (key, json.String s) members -> names equalFold f key = false) ->
  lastClaim equalFold f members = None.
Proof.
  induction members as [| [key val] rest IH]; intros Hno; [reflexivity|].
  cbn [lastClaim].
  rewrite IH by (intros k s Hin; apply (Hno k s); now right).
  destruct (fieldFor equalFold key) as [g|] eqn:Hg; [|reflexivity].
  destruct val; try reflexivity.
  destruct (Field_eqb g f) eqn:Hgf; [|reflexivity].
  apply Field_eqb_true in Hgf. subst g. apply fieldFor_names in Hg.
  rewrite (Hno key s) in Hg by now left. discriminate Hg.
Qed.

Lemma claimed_false f idt :
  claimed f idt = false -> lastClaim equalFold f (claimMembers idt) = None.
Proof.
  intros Hc. apply lastClaim_none. intros key s Hin.
  exact (existsb_false _ _ Hc (key, json.String s) Hin).
Qed.

Lemma carries_false f idt :
  carries f idt = false -> lastClaim equalFold f (claimMembers idt) = None.
Proof.
  intros Hc. apply lastClaim_none. intros key s Hin.
  exact (existsb_false _ _ Hc (key, json.String s) Hin).
Qed.

(** A successful run against the library, and the record it returns. *)
Lemma library_success W (P : Provider W) o ctx cfg code w token w1 id idt w2 :
  exchange P cfg (oidc.ClientContext ctx (h o)) code w = (Ok token, w1) ->
  oauth2.Extra token tokenFieldIDToken = AnyString id ->
  verify P (v o) ctx id w1 = (Ok idt, w2) ->
  snd (IDToken_Claims equalFold idt (prepopulated cfg token id idt)) = None ->
  returned (library equalFold P) (Process o ctx cfg code) w =
    (Some (fst (fold_left (decodeMember equalFold) (claimMembers idt)
                  (prepopulated cfg token id idt, None))), None).
Proof.
  intros Hex Hid Hv Hdec. unfold returned.
  erewrite run_success
    with (p := fst (IDToken_Claims equalFold idt (prepopulated cfg token id idt)));
    [| exact Hex | exact Hid | exact Hv |].
  - cbn [fst]. now rewrite (Claims_success _ _ Hdec).
  - cbn [library].
    destruct (IDToken_Claims equalFold idt (prepopulated cfg token id idt)) as [p e].
    cbn [snd] in Hdec. now subst e.
Qed.
End DecodingLaws.

(* ================================================================== *)
(** ** The record of a successful run                                 *)
(* ================================================================== *)

Section SuccessfulRun.
Variable equalFold : string -> string -> bool.
Variable W : Type.
Variable P : Provider W.
Variables (o : oidcExtractor) (ctx : context.Context).
Variables (cfg : oauth2.Config) (code : string) (w : W).
Variables (token : oauth2.Token) (w1 : W) (id : string).
Variables (idt : oidc.IDToken) (w2 : W).

Hypothesis exchanged :
  exchange P cfg (oidc.ClientContext ctx (h o)) code w = (Ok token, w1).
Hypothesis hasIDToken : oauth2.Extra token tokenFieldIDToken = AnyString id.
Hypothesis verified : verify P (v o) ctx id w1 = (Ok idt, w2).
Hypothesis decoded :
  snd (IDToken_Claims equalFold idt (prepopulated cfg token id idt)) = None.

(** C1, amended.  A run whose exchange yields a string [id_token] that
    verifies and whose claims decode returns a record and a nil error.
    Each of [ClientID], [ClientSecret], [IDToken], [RefreshToken] and
    [IssuerURL] has the value taken from the configuration, the raw token
    string, the token set and the issuer claim respectively, provided no
    string claim of the token is stored into that field. *)
Theorem Process_success_fields :
  exists p,
    returned (library equalFold P) (Process o ctx cfg code) w = (Some p, None)
    /\ (claimed equalFold FClientID idt = false ->
        ClientID p = oauth2.ClientID cfg)
    /\ (claimed equalFold FClientSecret idt = false ->
        ClientSecret p = oauth2.ClientSecret cfg)
    /\ (claimed equalFold FIDToken idt = false -> IDToken p = id)
    /\ (claimed equalFold FRefreshToken idt = false ->
        RefreshToken p = oauth2.RefreshToken token)
    /\ (claimed equalFold FIssuerURL idt = false ->
        IssuerURL p = oidc.Issuer idt).
Proof.
  eexists. split; [eapply library_success; eassumption|].
  repeat split; intros Hno;
    match goal with
    | |- ?proj _ = _ =>
        match type of Hno with
        | claimed _ ?f _ = false =>
            change (get f (fst (fold_left (decodeMember equalFold) (claimMembers idt)
                                  (prepopulated cfg token id idt, None)))
                    = get f (prepopulated cfg token id idt))
        end
    end;
    rewrite decode_fold_get, (claimed_false _ _ _ Hno); reflexivity.
Qed.

(** C5, amended.  Decoding does not give way to the fields filled in
    beforehand: in the record of a successful run every field, [Username]
    included, holds the value of the last string claim stored into it, and
    keeps what it held before decoding only when there is no such claim. *)
Theorem Process_claims_overwrite :
  exists p,
    returned (library equalFold P) (Process o ctx cfg code) w = (Some p, None)
    /\ forall f,
         get f p = match lastClaim equalFold f (claimMembers idt) with
                   | Some s => s
                   | None => get f (prepopulated cfg token id idt)
                   end.
Proof.
  eexists. split; [eapply library_success; eassumption|].
  intros f. now rewrite decode_fold_get.
Qed.

(** C9, amended.  When, in addition, no claim of the token bears the name
    [email], compared as the decoder compares names (exactly or up to letter
    case), the run still succeeds and [Username] is empty: the presence of
    the claim is not checked. *)
Theorem Process_no_email_claim :
  carries equalFold FUsername idt = false ->
  exists p,
    returned (library equalFold P) (Process o ctx cfg code) w = (Some p, None)
    /\ Username p = "".
Proof.
  intros Hno.
  eexists. split; [eapply library_success; eassumption|].
  change (get FUsername (fst (fold_left (decodeMember equalFold) (claimMembers idt)
                                (prepopulated cfg token id idt, None))) = "").
  now rewrite decode_fold_get, (carries_false _ _ _ Hno).
Qed.
End SuccessfulRun.

(** Witness of C1: the specification's scenario, where the claims are [iss]
    and [email]. *)
Lemma Process_success_fields_witness :
  exists p,
    returned (Scenario.collaborators Scenario.token (Ok Scenario.idt))
      (Process Scenario.extractor context.Background Scenario.cfg Scenario.code) tt
      = (Some p, None)
    /\ (claimed asciiEqualFold FClientID Scenario.idt = false -> ClientID p = "abc")
    /\ (claimed asciiEqualFold FClientSecret Scenario.idt = false ->
        ClientSecret p = "xyz")
    /\ (claimed asciiEqualFold FIDToken Scenario.idt = false -> IDToken p = "<valid-jwt>")
    /\ (claimed asciiEqualFold FRefreshToken Scenario.idt = false ->
        RefreshToken p = "r1")
    /\ (claimed asciiEqualFold FIssuerURL Scenario.idt = false ->
        IssuerURL p = "https://issuer.example").
Proof.
  apply (@Process_success_fields asciiEqualFold unit
           (Scenario.provider Scenario.token (Ok Scenario.idt))
           Scenario.extractor context.Background Scenario.cfg Scenario.code tt
           Scenario.token tt Scenario.jwt Scenario.idt tt);
    reflexivity.
Defined.

(** C1 as stated fails: the token verifies, its claims decode, and a claim
    named [clientID] replaces the client ID of the configuration. *)
Lemma Process_claim_replaces_ClientID :
  let P := Scenario.provider Scenario.token (Ok Scenario.idtClientID) in
  let o := Scenario.extractor in
  let pre := prepopulated Scenario.cfg Scenario.token Scenario.jwt Scenario.idtClientID in
  exchange P Scenario.cfg (oidc.ClientContext context.Background (h o)) Scenario.code tt
    = (Ok Scenario.token, tt)
  /\ oauth2.Extra Scenario.token tokenFieldIDToken = AnyString Scenario.jwt
  /\ verify P (v o) context.Background Scenario.jwt tt = (Ok Scenario.idtClientID, tt)
  /\ snd (IDToken_Claims asciiEqualFold Scenario.idtClientID pre) = None
  /\ returned (library asciiEqualFold P)
       (Process o context.Background Scenario.cfg Scenario.code) tt
     = (Some {| Username := "user@example.com";
                ClientID := "evil";
                ClientSecret := "xyz";
                IDToken := "<valid-jwt>";
                RefreshToken := "r1";
                IssuerURL := "https://issuer.example" |}, None)
  /\ "evil" <> oauth2.ClientID Scenario.cfg.
Proof. repeat split. discriminate. Qed.

(** Witness of C5: a token with a claim named [issuer]. *)
Lemma Process_claims_overwrite_witness :
  exists p,
    returned (Scenario.collaborators Scenario.token (Ok Scenario.idtIssuer))
      (Process Scenario.extractor context.Background Scenario.cfg Scenario.code) tt
      = (Some p, None)
    /\ forall f,
         get f p =
           match lastClaim asciiEqualFold f (claimMembers Scenario.idtIssuer) with
           | Some s => s
           | None => get f (prepopulated Scenario.cfg Scenario.token Scenario.jwt
                              Scenario.idtIssuer)
           end.
Proof.
  apply (@Process_claims_overwrite asciiEqualFold unit
           (Scenario.provider Scenario.token (Ok Scenario.idtIssuer))
           Scenario.extractor context.Background Scenario.cfg Scenario.code tt
           Scenario.token tt Scenario.jwt Scenario.idtIssuer tt);
    reflexivity.
Defined.

(** C5 as stated fails: [IssuerURL] was filled in from the verified token's
    issuer, and the claim named [issuer] takes its place; the record differs
    from the one filled in beforehand in a field other than [Username]. *)
Lemma Process_claim_replaces_IssuerURL :
  let P := Scenario.provider Scenario.token (Ok Scenario.idtIssuer) in
  let o := Scenario.extractor in
  let pre := prepopulated Scenario.cfg Scenario.token Scenario.jwt Scenario.idtIssuer in
  IssuerURL pre = "https://issuer.example"
  /\ snd (IDToken_Claims asciiEqualFold Scenario.idtIssuer pre) = None
  /\ returned (library asciiEqualFold P)
       (Process o context.Background Scenario.cfg Scenario.code) tt
     = (Some {| Username := "";
                ClientID := "abc";
                ClientSecret := "xyz";
                IDToken := "<valid-jwt>";
                RefreshToken := "r1";
                IssuerURL := "https://other.example" |}, None)
  /\ "https://other.example" <> IssuerURL pre.
Proof. repeat split. discriminate. Qed.

(** Witness of C9: the claims are [iss] and [sub]. *)
Lemma Process_no_email_claim_witness :
  carries asciiEqualFold FUsername Scenario.idtNoEmail = false
  /\ exists p,
       returned (Scenario.collaborators Scenario.token (Ok Scenario.idtNoEmail))
         (Process Scenario.extractor context.Background Scenario.cfg Scenario.code) tt
         = (Some p, None)
       /\ Username p = "".
Proof.
  split; [reflexivity|].
  apply (@Process_no_email_claim asciiEqualFold unit
           (Scenario.provider Scenario.token (Ok Scenario.idtNoEmail))
           Scenario.extractor context.Background Scenario.cfg Scenario.code tt
           Scenario.token tt Scenario.jwt Scenario.idtNoEmail tt);
    reflexivity.
Defined.

(** C9 as stated fails: the token has no claim named [email], its claims
    decode, and the claim spelled [EMAIL] fills [Username]. *)
Lemma Process_uppercase_email_fills_Username :
  let idt := Scenario.idTokenOf
               [Scenario.iss; ("EMAIL", json.String "u@example.com")] in
  let pre := prepopulated Scenario.cfg Scenario.token Scenario.jwt idt in
  let r := returned (Scenario.collaborators Scenario.token (Ok idt))
             (Process Scenario.extractor context.Background Scenario.cfg
                Scenario.code) tt in
  existsb (fun m => String.eqb (fst m) "email") (claimMembers idt) = false
  /\ snd (IDToken_Claims asciiEqualFold idt pre) = None
  /\ (exists p, r = (Some p, None) /\ Username p = "u@example.com")
  /\ ~ (exists p, r = (Some p, None) /\ Username p = "").
Proof.
  repeat split.
  - eexists. split; reflexivity.
  - intros (p & Hr & Hu). injection Hr as <-. discriminate Hu.
Qed.

(** The decoder ignores letter case: a claim spelled [EMAIL] is stored into
    [Username] as well. *)
Example Process_email_claim_any_case :
  returned
    (Scenario.collaborators Scenario.token
       (Ok (Scenario.idTokenOf [Scenario.iss; ("EMAIL", json.String "u@example.com")])))
    (Process Scenario.extractor context.Background Scenario.cfg Scenario.code) tt
  = (Some {| Username := "u@example.com";
             ClientID := "abc";
             ClientSecret := "xyz";
             IDToken := "<valid-jwt>";
             RefreshToken := "r1";
             IssuerURL := "https://issuer.example" |}, None).
Proof. reflexivity. Qed.


(* ================================================================== *)
(** ** Further properties of [Process]                                *)
(* ================================================================== *)

(** The arguments of the exchanges, verifications and decodings a run made,
    in order. *)
Definition exchanges (tr : list (Called oidcE))
  : list (oauth2.Config * context.Context * string) :=
  flat_map (fun c => match c with
                     | called (Exchange cfg octx code) => [(cfg, octx, code)]
                     | _ => []
                     end) tr.

Definition verifications (tr : list (Called oidcE))
  : list (oidc.IDTokenVerifier * context.Context * string) :=
  flat_map (fun c => match c with
                     | called (Verify vf ctx raw) => [(vf, ctx, raw)]
                     | _ => []
                     end) tr.

Definition decodings (tr : list (Called oidcE))
  : list (oidc.IDToken * OIDCAuthenticationParams) :=
  flat_map (fun c => match c with
                     | called (Claims idt into) => [(idt, into)]
                     | _ => []
                     end) tr.

Section Runs.
Variable W : Type.
Variable answer : forall X, oidcE X -> W -> X * W.
Variables (o : oidcExtractor) (ctx : context.Context).
Variables (cfg : oauth2.Config) (code : string) (w : W).

Let octx := oidc.ClientContext ctx (h o).

(** X1.  Nothing is retried.  A run makes at most three calls; the code is
    exchanged exactly once; the verifier is invoked once, with the
    extractor's verifier, the caller's context and the raw string, exactly
    when the exchange returned a string [id_token] (the empty string
    included), and not at all otherwise. *)
Theorem Process_calls_once :
  let tr := calls answer (Process o ctx cfg code) w in
  length tr <= 3
  /\ exchanges tr = [(cfg, octx, code)]
  /\ verifications tr =
       match answer (Exchange cfg octx code) w with
       | (Ok token, _) =>
           match oauth2.Extra token tokenFieldIDToken with
           | AnyString id => [(v o, ctx, id)]
           | _ => []
           end
       | (Failed _, _) => []
       end.
Proof.
  destruct (run_cases answer o ctx cfg code w) as [oc [Hans Hrun]].
  cbv zeta. unfold calls, octx. rewrite Hrun.
  destruct oc; cbn [runOf snd length exchanges verifications flat_map app];
    cbn [answered] in Hans.
  - rewrite Hans. repeat split. repeat constructor.
  - destruct Hans as [Hex Hid]. rewrite Hex.
    split; [repeat constructor|]. split; [reflexivity|].
    destruct (oauth2.Extra token tokenFieldIDToken); try reflexivity.
    discriminate Hid.
  - destruct Hans as (w1 & Hex & Hid & _). rewrite Hex, Hid.
    repeat split. repeat constructor.
  - destruct Hans as (w1 & w2 & p & Hex & Hid & _).
    rewrite Hex, Hid. repeat split. repeat constructor.
  - destruct Hans as (w1 & w2 & Hex & Hid & _).
    rewrite Hex, Hid. repeat split. repeat constructor.
Qed.

(** X2.  A record is returned only for a verified token: when [Process]
    returns a record, the exchange succeeded with a string [id_token], the
    extractor's verifier accepted that very string, the record is what
    decoding the accepted token's claims made of the record filled in from
    the configuration, the string, the token set and the issuer, and the
    error is nil. *)
Theorem Process_record_only_when_verified p e :
  returned answer (Process o ctx cfg code) w = (Some p, e) ->
  e = None
  /\ exists token w1 id idt w2 w3,
       answer (Exchange cfg octx code) w = (Ok token, w1)
       /\ oauth2.Extra token tokenFieldIDToken = AnyString id
       /\ answer (Verify (v o) ctx id) w1 = (Ok idt, w2)
       /\ answer (Claims idt (prepopulated cfg token id idt)) w2 = ((p, None), w3)
       /\ decodings (calls answer (Process o ctx cfg code) w)
            = [(idt, prepopulated cfg token id idt)].
Proof.
  destruct (run_cases answer o ctx cfg code w) as [oc [Hans Hrun]].
  unfold returned, calls. rewrite Hrun.
  destruct oc; cbn [runOf fst snd]; intros Hr; try discriminate Hr.
  injection Hr as <- <-. split; [reflexivity|].
  destruct Hans as (w1 & w2 & Hex & Hid & Hv & Hc).
  exists token, w1, id, idt, w2, w3. repeat split; assumption.
Qed.

(** The stage descriptions. *)
Definition stageExchange : string := "cannot exchange code for token".
Definition stageVerify : string := "cannot verify ID token".
Definition stageClaims : string := "cannot extract claims from ID token".

(** X3.  The error tells which step failed and why.  A non-nil error of
    [Process] is never a collaborator's error as such: it is the sentinel, or
    the error of the one collaborator that failed, unchanged, under the
    description of that collaborator's stage; the steps before it
    succeeded. *)
Theorem Process_error_names_failed_step e :
  snd (returned answer (Process o ctx cfg code) w) = Some e ->
  (Some e = ErrMissingIDToken
   /\ exists token w1,
        answer (Exchange cfg octx code) w = (Ok token, w1)
        /\ isString (oauth2.Extra token tokenFieldIDToken) = false)
  \/ (exists cause w1,
        e = errors.withStack cause stageExchange
        /\ answer (Exchange cfg octx code) w = (Failed cause, w1))
  \/ (exists cause token w1 id w2,
        e = errors.withStack cause stageVerify
        /\ answer (Exchange cfg octx code) w = (Ok token, w1)
        /\ oauth2.Extra token tokenFieldIDToken = AnyString id
        /\ answer (Verify (v o) ctx id) w1 = (Failed cause, w2))
  \/ (exists cause token w1 id idt w2 p w3,
        e = errors.withStack cause stageClaims
        /\ answer (Exchange cfg octx code) w = (Ok token, w1)
        /\ oauth2.Extra token tokenFieldIDToken = AnyString id
        /\ answer (Verify (v o) ctx id) w1 = (Ok idt, w2)
        /\ answer (Claims idt (prepopulated cfg token id idt)) w2
             = ((p, Some cause), w3)).
Proof.
  destruct (run_cases answer o ctx cfg code w) as [oc [Hans Hrun]].
  unfold returned. rewrite Hrun.
  destruct oc; cbn [runOf fst snd]; cbn [answered] in Hans; intros Hr.
  - injection Hr as <-. right. left. now exists err, w1.
  - left. split; [now rewrite <- Hr|]. destruct Hans as [Hex Hid].
    exists token, w1. split; [exact Hex|]. now rewrite <- assertString_isString.
  - injection Hr as <-. right. right. left.
    destruct Hans as (w1 & Hex & Hid & Hv). now exists err, token, w1, id, w2.
  - injection Hr as <-. right. right. right.
    destruct Hans as (w1 & w2 & p & Hex & Hid & Hv & Hc).
    now exists err, token, w1, id, idt, w2, p, w3.
  - discriminate Hr.
Qed.
End Runs.

(** Witness of X2: the specification's scenario. *)
Lemma Process_record_only_when_verified_witness :
  let answer := Scenario.collaborators Scenario.token (Ok Scenario.idt) in
  let p := {| Username := "user@example.com";
              ClientID := "abc";
              ClientSecret := "xyz";
              IDToken := "<valid-jwt>";
              RefreshToken := "r1";
              IssuerURL := "https://issuer.example" |} in
  returned answer
    (Process Scenario.extractor context.Background Scenario.cfg Scenario.code) tt
    = (Some p, None)
  /\ exists token w1 id idt w2 w3,
       answer _ (Exchange Scenario.cfg
                   (oidc.ClientContext context.Background (h Scenario.extractor))
                   Scenario.code) tt = (Ok token, w1)
       /\ oauth2.Extra token tokenFieldIDToken = AnyString id
       /\ answer _ (Verify (v Scenario.extractor) context.Background id) w1
            = (Ok idt, w2)
       /\ answer _ (Claims idt (prepopulated Scenario.cfg token id idt)) w2
            = ((p, None), w3)
       /\ decodings (calls answer
                       (Process Scenario.extractor context.Background
                          Scenario.cfg Scenario.code) tt)
            = [(idt, prepopulated Scenario.cfg token id idt)].
Proof.
  split; [reflexivity|].
  apply (@Process_record_only_when_verified unit
           (Scenario.collaborators Scenario.token (Ok Scenario.idt))
           Scenario.extractor context.Background Scenario.cfg Scenario.code tt
           _ None).
  reflexivity.
Defined.

(** Witness of X3: the verifier finds the token expired. *)
Lemma Process_error_names_failed_step_witness :
  let expired := errors.foreign "oidc: token is expired" in
  let answer := Scenario.collaborators Scenario.token (Failed expired) in
  snd (returned answer
         (Process Scenario.extractor context.Background Scenario.cfg Scenario.code) tt)
    = Some (errors.withStack expired stageVerify)
  /\ exists cause token w1 id w2,
       errors.withStack expired stageVerify = errors.withStack cause stageVerify
       /\ answer _ (Exchange Scenario.cfg
                      (oidc.ClientContext context.Background (h Scenario.extractor))
                      Scenario.code) tt = (Ok token, w1)
       /\ oauth2.Extra token tokenFieldIDToken = AnyString id
       /\ answer _ (Verify (v Scenario.extractor) context.Background id) w1
            = (Failed cause, w2).
Proof.
  split; [reflexivity|].
  destruct (@Process_error_names_failed_step unit
              (Scenario.collaborators Scenario.token
                 (Failed (errors.foreign "oidc: token is expired")))
              Scenario.extractor context.Background Scenario.cfg Scenario.code tt
              (errors.withStack (errors.foreign "oidc: token is expired") stageVerify)
              eq_refl)
    as [[Hs _] | [(c & w1 & He & _) | [Hv | (c & t & w1 & i & d & w2 & p & w3 & He & _)]]].
  - discriminate Hs.
  - discriminate He.
  - exact Hv.
  - discriminate He.
Defined.

(* ================================================================== *)
(** ** Further properties of [NewOIDC]                                *)
(* ================================================================== *)

Section RunCongruence.
Variable E : Type -> Type.
Variable W : Type.
Variable answer : forall X, E X -> W -> X * W.

Lemma run_bind_assoc A B C (p : Prog E A) (f : A -> Prog E B) (g : B -> Prog E C) w :
  run answer (bind (bind p f) g) w
    = run answer (bind p (fun x => bind (f x) g)) w.
Proof.
  revert w. induction p as [a | X e k IH]; intros w; [reflexivity|].
  cbn [bind run]. now rewrite IH.
Qed.

Lemma run_bind_ext A B (p : Prog E A) (f g : A -> Prog E B) w :
  (forall x w', run answer (f x) w' = run answer (g x) w') ->
  run answer (bind p f) w = run answer (bind p g) w.
Proof.
  intros Hfg. rewrite !run_bind. unfold calls. now rewrite Hfg.
Qed.

(** The rest of the loop after a first stretch of options. *)
Definition continueWith (post : list (Option E))
    (r : option oidcExtractor * error) : Prog E (option oidcExtractor * error) :=
  match fst r with
  | Some oe => applyOptions oe post
  | None => Ret r
  end.

Lemma run_applyOptions_app (pre post : list (Option E)) oe w :
  run answer (applyOptions oe (pre ++ post)) w
    = run answer (bind (applyOptions oe pre) (continueWith post)) w.
Proof.
  revert oe w. induction pre as [| o pre IH]; intros oe w; [reflexivity|].
  cbn [app applyOptions]. rewrite run_bind_assoc. apply run_bind_ext.
  intros x w'. destruct (snd x) as [err|]; [reflexivity | apply IH].
Qed.

(** X4.  Options compose: applying a list of options that is the
    concatenation of two lists is applying the first list and, when none of
    its options failed, going on with the second list from the extractor
    the first list left; the returned value, the state of the outside world
    and the calls made are the same. *)
Theorem NewOIDC_options_compose vf (pre post : list (Option E)) w :
  run answer (NewOIDC vf (pre ++ post)) w
    = run answer (bind (NewOIDC vf pre) (continueWith post)) w.
Proof. unfold NewOIDC. apply run_applyOptions_app. Qed.

(** X5.  The first failing option ends construction: the options after it
    are never applied.  Whatever follows the failing option in the list, the
    run returns no extractor and that option's error wrapped, and consists of
    the calls of the options up to and including the failing one. *)
Theorem NewOIDC_stops_at_failing_option vf (pre post : list (Option E)) o w oe err :
  returned answer (NewOIDC vf pre) w = (Some oe, None) ->
  snd (returned answer (o oe) (world answer (NewOIDC vf pre) w)) = Some err ->
  run answer (NewOIDC vf (pre ++ o :: post)) w
    = ((None, Some (errors.withStack err "cannot apply OIDC option")),
       world answer (o oe) (world answer (NewOIDC vf pre) w),
       (calls answer (NewOIDC vf pre) w
          ++ calls answer (o oe) (world answer (NewOIDC vf pre) w))%list).
Proof.
  intros Hpre Herr. unfold NewOIDC, returned, world, calls in *.
  rewrite run_applyOptions_app, run_bind. unfold returned, world, calls.
  rewrite Hpre. unfold continueWith. cbn [fst applyOptions].
  rewrite run_bind. unfold returned, world, calls. rewrite Herr.
  cbn [run fst snd]. now rewrite app_nil_r.
Qed.
End RunCongruence.

(** Witness of X5: the second of three options fails. *)
Lemma NewOIDC_stops_at_failing_option_witness :
  let answer := Scenario.collaborators Scenario.token (Ok Scenario.idt) in
  let failing : Option oidcE :=
    fun oe => Ret (oe, Some (errors.foreign "unsupported")) in
  run answer
    (NewOIDC Scenario.vf
       ([HTTPClient (http.ClientAt 1)] ++ failing :: [HTTPClient (http.ClientAt 2)]))
    tt
  = ((None, Some (errors.withStack (errors.foreign "unsupported")
                    "cannot apply OIDC option")), tt, []).
Proof.
  apply (@NewOIDC_stops_at_failing_option oidcE unit
           (Scenario.collaborators Scenario.token (Ok Scenario.idt))
           Scenario.vf [HTTPClient (http.ClientAt 1)] [HTTPClient (http.ClientAt 2)]
           (fun oe => Ret (oe, Some (errors.foreign "unsupported"))) tt
           {| v := Scenario.vf; h := http.ClientAt 1 |}
           (errors.foreign "unsupported"));
    reflexivity.
Defined.

(** X6.  Construction and use.  An extractor that [NewOIDC] returns for a
    list of [HTTPClient] options exchanges the code once, in a context
    derived from the caller's that carries the client of the last option, or
    [http.DefaultClient] when the list is empty; and whenever it verifies, it
    does so with the verifier that was given to [NewOIDC]. *)
Theorem NewOIDC_then_Process
    (W0 : Type) (answer0 : forall X, oidcE X -> W0 -> X * W0) (w0 : W0)
    (W : Type) (answer : forall X, oidcE X -> W -> X * W)
    (vf : oidc.IDTokenVerifier) (hs : list http.Client) (oe : oidcExtractor)
    (ctx : context.Context) (cfg : oauth2.Config) (code : string) (w : W) :
  fst (returned answer0 (NewOIDC vf (map HTTPClient hs)) w0) = Some oe ->
  let tr := calls answer (Process oe ctx cfg code) w in
  let client := last hs http.DefaultClient in
  exchanges tr = [(cfg, context.WithHTTPClient ctx client, code)]
  /\ context.HTTPClientOf (context.WithHTTPClient ctx client) = Some client
  /\ Forall (fun c => fst (fst c) = vf) (verifications tr).
Proof.
  unfold NewOIDC. rewrite applyOptions_HTTPClient. cbn [returned run fst v h].
  intros [= <-]. cbv zeta.
  destruct (run_cases answer {| v := vf; h := last hs http.DefaultClient |}
              ctx cfg code w) as [oc [_ Hrun]].
  unfold calls. rewrite Hrun.
  destruct oc; cbn [runOf snd exchanges verifications flat_map app v h];
    repeat split; repeat constructor.
Qed.

(** Witness of X6: two options; the client of the second reaches the
    exchange. *)
Lemma NewOIDC_then_Process_witness :
  let answer := Scenario.collaborators Scenario.token (Ok Scenario.idt) in
  let hs := [http.ClientAt 1; http.ClientAt 2] in
  let oe := {| v := Scenario.vf; h := http.ClientAt 2 |} in
  let tr := calls answer
              (Process oe context.Background Scenario.cfg Scenario.code) tt in
  fst (returned answer (NewOIDC Scenario.vf (map HTTPClient hs)) tt) = Some oe
  /\ exchanges tr
       = [(Scenario.cfg,
           context.WithHTTPClient context.Background (http.ClientAt 2),
           Scenario.code)]
  /\ context.HTTPClientOf
       (context.WithHTTPClient context.Background (http.ClientAt 2))
     = Some (http.ClientAt 2)
  /\ Forall (fun c => fst (fst c) = Scenario.vf) (verifications tr).
Proof.
  split; [reflexivity|].
  apply (@NewOIDC_then_Process unit
           (Scenario.collaborators Scenario.token (Ok Scenario.idt)) tt unit
           (Scenario.collaborators Scenario.token (Ok Scenario.idt))
           Scenario.vf [http.ClientAt 1; http.ClientAt 2]
           {| v := Scenario.vf; h := http.ClientAt 2 |}
           context.Background Scenario.cfg Scenario.code tt).
  reflexivity.
Defined.
